(** * cmMod.cpp: the string-joining class of the custom-command test project

    The translation unit defines one class, [cmModClass], with a single
    data member [str], a constructor and two [const] member functions.
    Member functions are embedded as computations over the receiver
    object and the state of the rest of the process; the free function
    [getStrCpy], declared in an included header and defined in another
    translation unit, is a parameter of the development.

    [std::string] is a sequence of 8-bit characters: [string] of the
    Standard Library.  [operator+] on strings is [append].  Storage
    exhaustion is outside the model. *)

From Stdlib Require Import String Ascii List PeanoNat Lia.
Import ListNotations.
Open Scope string_scope.

(** ** Outcomes of a call

    A C++ call either returns a value or leaves by an exception. *)

Inductive outcome (Exn A : Type) : Type :=
| Returns (a : A)
| Throws (e : Exn).
Arguments Returns {Exn A} a.
Arguments Throws {Exn A} e.

(** ** The class *)

(** Modelled from the spec: the class declaration is in [cmMod.hpp],
    which is not among the sources.  The spec gives the object one
    attribute, an owned text string; the member functions of
    [cmMod.cpp] name it [str], assign a [string] to it and return it
    as a [string]. *)
Record cmModClass : Type := Build_cmModClass { str : string }.

(** A data member of class type that the constructor does not name in
    an initialiser list is default-initialised before the constructor
    body runs: [str] starts as the empty string. *)
Definition default_initialised : cmModClass := {| str := "" |}.

Section Program.

(** The state of the rest of the process, and what can be thrown. *)
Variables Env Exn : Type.

(** A member function body: it runs on the receiver ([this]) and the
    process environment, and yields an outcome with both updated. *)
Definition method (A : Type) : Type :=
  cmModClass -> Env -> outcome Exn A * cmModClass * Env.

(** A free function: no receiver. *)
Definition extern_fn (A : Type) : Type := Env -> outcome Exn A * Env.

Definition ret {A} (a : A) : method A :=
  fun this env => (Returns a, this, env).

Definition bind {A B} (m : method A) (k : A -> method B) : method B :=
  fun this env =>
    match m this env with
    | (Returns a, this', env') => k a this' env'
    | (Throws e, this', env') => (Throws e, this', env')
    end.

(** Reading and assigning the member [str]. *)
Definition load_str : method string :=
  fun this env => (Returns (str this), this, env).

Definition store_str (v : string) : method unit :=
  fun _ env => (Returns tt, {| str := v |}, env).

(** Calling a free function from a member function: it does not see
    the receiver. *)
Definition extern {A} (f : extern_fn A) : method A :=
  fun this env => let (o, env') := f env in (o, this, env').

Local Notation "x <- m ;; k" := (bind m (fun x => k))
  (at level 61, m at next level, right associativity).

(** The three components of what a call, or a sequence of calls,
    yields. *)
Definition result {R} (x : R * cmModClass * Env) : R := fst (fst x).
Definition receiver {R} (x : R * cmModClass * Env) : cmModClass := snd (fst x).
Definition environment {R} (x : R * cmModClass * Env) : Env := snd x.

(** [getStrCpy], a free function of no argument that [getOther] calls
    for a [string]; its declaration comes with an included header and
    its definition is in another translation unit, so it is left
    open: it may read and change the environment, and it may throw. *)
Variable getStrCpy : extern_fn string.

(** [cmModClass::cmModClass(string foo) { str = foo + " World"; }] *)
Definition cmModClass_cmModClass (foo : string) : method unit :=
  store_str (foo ++ " World").

(** [string cmModClass::getStr() const { return str; }] *)
Definition getStr : method string :=
  load_str.

(** [string cmModClass::getOther() const {
       return getStr() + "  --  " + getStrCpy(); }]
    [+] associates to the left. *)
Definition getOther : method string :=
  a <- getStr ;;
  b <- extern getStrCpy ;;
  ret ((a ++ "  --  ") ++ b).

(** The operands of [+] may be evaluated in either order; this is
    [getOther] with [getStrCpy()] called first. *)
Definition getOther_rev : method string :=
  b <- extern getStrCpy ;;
  a <- getStr ;;
  ret ((a ++ "  --  ") ++ b).

(** The expression [cmModClass(foo)]: a default-initialised object on
    which the constructor body has run. *)
Definition new_cmModClass (foo : string) (env : Env)
  : outcome Exn cmModClass * Env :=
  match cmModClass_cmModClass foo default_initialised env with
  | (Returns _, this, env') => (Returns this, env')
  | (Throws e, _, env') => (Throws e, env')
  end.

(** The expression [cmModClass(foo).m()], for a member function [m]. *)
Definition on_new {A} (foo : string) (m : method A) (env : Env)
  : outcome Exn A :=
  match new_cmModClass foo env with
  | (Returns this, env') => result (m this env')
  | (Throws e, _) => Throws e
  end.

(** A caller's use of one object: a sequence of calls of the two
    member functions, each outcome observed (an exception is caught by
    the caller, who goes on). *)
Inductive call : Type := CallGetStr | CallGetOther.

Definition invoke (c : call) : method string :=
  match c with
  | CallGetStr => getStr
  | CallGetOther => getOther
  end.

Fixpoint run_calls (cs : list call) (this : cmModClass) (env : Env)
  : list (outcome Exn string) * cmModClass * Env :=
  match cs with
  | [] => ([], this, env)
  | c :: cs' =>
      let '(o, this', env') := invoke c this env in
      let '(os, this'', env'') := run_calls cs' this' env' in
      (o :: os, this'', env'')
  end.

End Program.

Arguments ret {Env Exn A} a.
Arguments bind {Env Exn A B} m k.
Arguments load_str {Env Exn}.
Arguments store_str {Env Exn} v.
Arguments extern {Env Exn A} f.
Arguments result {Env R} x.
Arguments receiver {Env R} x.
Arguments environment {Env R} x.
Arguments cmModClass_cmModClass {Env Exn} foo.
Arguments getStr {Env Exn}.
Arguments getOther {Env Exn} getStrCpy.
Arguments getOther_rev {Env Exn} getStrCpy.
Arguments new_cmModClass {Env Exn} foo env.
Arguments on_new {Env Exn A} foo m env.
Arguments invoke {Env Exn} getStrCpy c.
Arguments run_calls {Env Exn} getStrCpy cs this env.

(** How often a sequence of calls reaches [getStrCpy]: [getOther] has
    one call of it in its body, [getStr] has none. *)
Fixpoint provider_calls (cs : list call) : nat :=
  match cs with
  | [] => 0
  | CallGetStr :: cs' => provider_calls cs'
  | CallGetOther :: cs' => S (provider_calls cs')
  end.

(** ** Sample collaborators, for running the definitions *)

Module Sample.

(** A provider that returns a constant and counts its calls. *)
Definition counting : extern_fn nat unit string :=
  fun n => (Returns "Hello Copied", S n).

(** A provider whose answer depends on the environment. *)
Definition echoing : extern_fn string unit string :=
  fun s => (Returns s, s).

(** A provider that throws once its budget is used up. *)
Definition failing : extern_fn nat unit string :=
  fun n => match n with
           | O => (Throws tt, O)
           | S k => (Returns "ok", k)
           end.

End Sample.

(** ** Facts on [append] and [prefix] that the library does not provide *)

Module Str.

Lemma append_assoc (s t u : string) : (s ++ t) ++ u = s ++ (t ++ u).
Proof. induction s as [|c s IH]; simpl; [reflexivity | now rewrite IH]. Qed.

Lemma length_append (s t : string) :
  String.length (s ++ t) = String.length s + String.length t.
Proof. induction s as [|c s IH]; simpl; [reflexivity | now rewrite IH]. Qed.

(** A string is never a proper tail of itself. *)
Lemma append_cons_neq (c : ascii) (s u : string) : u <> String c s ++ u.
Proof.
  intro H. apply (f_equal String.length) in H.
  simpl in H. rewrite length_append in H. lia.
Qed.

(** Right cancellation: a common suffix can be removed. *)
Lemma append_inv_tail (u : string) :
  forall s t : string, s ++ u = t ++ u -> s = t.
Proof.
  induction s as [|a s IH]; destruct t as [|b t]; simpl; intro H.
  - reflexivity.
  - exfalso. exact (append_cons_neq b t u H).
  - exfalso. symmetry in H. exact (append_cons_neq a s u H).
  - injection H as Hab Hst. f_equal; [exact Hab | exact (IH t Hst)].
Qed.

Lemma prefix_append (s t : string) : prefix s (s ++ t) = true.
Proof.
  induction s as [|c s IH]; simpl.
  - now destruct t.
  - destruct (ascii_dec c c) as [_|N]; [exact IH | now elim N].
Qed.

End Str.

(** ** The definitions, run on the sample collaborators *)

Module SampleRuns.
Import Sample.

Example getStr_hello :
  on_new (Exn := unit) "Hello" getStr 0 = Returns "Hello World".
Proof. reflexivity. Qed.

Example getOther_hello :
  on_new "Hello" (getOther counting) 0
  = Returns "Hello World  --  Hello Copied".
Proof. reflexivity. Qed.

Example getOther_failing :
  on_new "Hello" (getOther failing) 0 = Throws tt.
Proof. reflexivity. Qed.

Example run_calls_failing :
  run_calls failing [CallGetOther; CallGetStr; CallGetOther]
            {| str := "a World" |} 1
  = ([Returns "a World  --  ok"; Returns "a World"; Throws tt],
     {| str := "a World" |}, 0).
Proof. reflexivity. Qed.

End SampleRuns.

(** ** What each function computes *)

Section Steps.

Context {Env Exn : Type}.
Variable getStrCpy : extern_fn Env Exn string.

Lemma Returns_inj {A : Type} (a b : A) :
  @Returns Exn A a = Returns b -> a = b.
Proof. intro H; now injection H. Qed.

Lemma new_cmModClass_eq (foo : string) (env : Env) :
  new_cmModClass (Exn := Exn) foo env
  = (Returns {| str := foo ++ " World" |}, env).
Proof. reflexivity. Qed.

Lemma getStr_eq (this : cmModClass) (env : Env) :
  getStr (Exn := Exn) this env = (Returns (str this), this, env).
Proof. reflexivity. Qed.

Lemma on_new_getStr (foo : string) (env : Env) :
  on_new (Exn := Exn) foo getStr env = Returns (foo ++ " World").
Proof. reflexivity. Qed.

(** [getOther] follows the outcome of [getStrCpy]. *)
Lemma getOther_eq (this : cmModClass) (env : Env) :
  getOther getStrCpy this env
  = match getStrCpy env with
    | (Returns r, env') => (Returns ((str this ++ "  --  ") ++ r), this, env')
    | (Throws e, env') => (Throws e, this, env')
    end.
Proof.
  unfold getOther, bind, getStr, load_str, extern, ret.
  destruct (getStrCpy env) as [[r|e] env']; reflexivity.
Qed.

Lemma getOther_returns (this : cmModClass) (env env' : Env) (r : string) :
  getStrCpy env = (Returns r, env') ->
  getOther getStrCpy this env
  = (Returns ((str this ++ "  --  ") ++ r), this, env').
Proof. intro H. rewrite getOther_eq, H. reflexivity. Qed.

(** A failure of [getStrCpy] leaves [getOther] as it is. *)
Lemma getOther_throws (this : cmModClass) (env env' : Env) (e : Exn) :
  getStrCpy env = (Throws e, env') ->
  getOther getStrCpy this env = (Throws e, this, env').
Proof. intro H. rewrite getOther_eq, H. reflexivity. Qed.

(** How [+] associates is not observable either. *)
Lemma getOther_returns_flat (this : cmModClass) (env env' : Env) (r : string) :
  getStrCpy env = (Returns r, env') ->
  getOther getStrCpy this env
  = (Returns (str this ++ "  --  " ++ r), this, env').
Proof.
  intro H. rewrite (getOther_returns this env env' r H).
  now rewrite Str.append_assoc.
Qed.

(** The order in which the operands of [+] are evaluated is not
    observable. *)
Lemma getOther_order (this : cmModClass) (env : Env) :
  getOther_rev getStrCpy this env = getOther getStrCpy this env.
Proof.
  rewrite getOther_eq.
  unfold getOther_rev, bind, getStr, load_str, extern, ret.
  destruct (getStrCpy env) as [[r|e] env']; reflexivity.
Qed.

(** The result of [getOther] is decided by the receiver's [str] and
    the outcome of [getStrCpy]. *)
Lemma result_getOther (this : cmModClass) (env : Env) :
  result (getOther getStrCpy this env)
  = match fst (getStrCpy env) with
    | Returns r => Returns ((str this ++ "  --  ") ++ r)
    | Throws e => Throws e
    end.
Proof.
  rewrite getOther_eq.
  destruct (getStrCpy env) as [[r|e] env']; reflexivity.
Qed.

Lemma receiver_getOther (this : cmModClass) (env : Env) :
  receiver (getOther getStrCpy this env) = this.
Proof.
  rewrite getOther_eq.
  destruct (getStrCpy env) as [[r|e] env']; reflexivity.
Qed.

Lemma receiver_invoke (c : call) (this : cmModClass) (env : Env) :
  receiver (invoke getStrCpy c this env) = this.
Proof.
  destruct c; simpl; [reflexivity | apply receiver_getOther].
Qed.

(** No sequence of calls changes the receiver. *)
Lemma receiver_run_calls (cs : list call) :
  forall (this : cmModClass) (env : Env),
    receiver (run_calls getStrCpy cs this env) = this.
Proof.
  induction cs as [|c cs IH]; intros this env; simpl.
  - reflexivity.
  - pose proof (receiver_invoke c this env) as Hc.
    destruct (invoke getStrCpy c this env) as [[o this'] env'].
    unfold receiver in Hc; simpl in Hc; subst this'.
    specialize (IH this env').
    destruct (run_calls getStrCpy cs this env') as [[os this''] env''].
    exact IH.
Qed.

(** Calls of [getStr] alone: every outcome is the stored value, and
    nothing moves. *)
Lemma run_calls_getStr (n : nat) (this : cmModClass) (env : Env) :
  run_calls getStrCpy (repeat CallGetStr n) this env
  = (repeat (Returns (str this)) n, this, env).
Proof.
  induction n as [|n IH]; simpl; [reflexivity|].
  rewrite IH. reflexivity.
Qed.

(** Two calls of [getOther] in a row: the second meets the environment
    that [getStrCpy] left at the first. *)
Lemma run_calls_getOther_twice (this : cmModClass) (env : Env) :
  run_calls getStrCpy [CallGetOther; CallGetOther] this env
  = ([result (getOther getStrCpy this env);
      result (getOther getStrCpy this (snd (getStrCpy env)))],
     this, snd (getStrCpy (snd (getStrCpy env)))).
Proof.
  cbn [run_calls invoke]. rewrite !getOther_eq.
  destruct (getStrCpy env) as [[r|e] env1]; cbn [snd];
    rewrite getOther_eq;
    destruct (getStrCpy env1) as [[r'|e'] env2]; reflexivity.
Qed.

(** [cmModClass(foo).getOther()] in closed form. *)
Lemma on_new_getOther (foo : string) (env : Env) :
  on_new foo (getOther getStrCpy) env
  = match fst (getStrCpy env) with
    | Returns r => Returns (((foo ++ " World") ++ "  --  ") ++ r)
    | Throws e => Throws e
    end.
Proof.
  unfold on_new. rewrite new_cmModClass_eq. apply result_getOther.
Qed.

End Steps.

(** ** Properties of the class *)

Section Properties.

Context {Env Exn : Type}.
Variable getStrCpy : extern_fn Env Exn string.

(** C1. For every string [s], [cmModClass(s).getStr()] returns [s]
    followed by [" World"]; for the empty string that is [" World"],
    and for ["Hello"] it is ["Hello World"]. *)
Theorem construct_then_getStr (s : string) (env : Env) :
  on_new (Exn := Exn) s getStr env = Returns (s ++ " World")
  /\ on_new (Exn := Exn) "" getStr env = Returns " World"
  /\ on_new (Exn := Exn) "Hello" getStr env = Returns "Hello World".
Proof.
  repeat split; apply on_new_getStr.
Qed.

(** C2. On every object, whenever [getStrCpy] returns a string [r],
    [getOther] returns exactly the value of [getStr], then ["  --  "],
    then [r]. *)
Theorem getOther_exact (this : cmModClass) (env env' : Env) (r : string) :
  getStrCpy env = (Returns r, env') ->
  exists v : string,
    getStr (Exn := Exn) this env = (Returns v, this, env)
    /\ getOther getStrCpy this env
       = (Returns ((v ++ "  --  ") ++ r), this, env').
Proof.
  intro Hr. exists (str this). split.
  - apply getStr_eq.
  - now apply getOther_returns.
Qed.

(** C3. On every object, whatever string [getStrCpy] returns, the
    string that [getOther] returns starts with the value of [getStr]
    followed by ["  --  "]. *)
Theorem getOther_prefix (this : cmModClass) (env : Env) (r : string) :
  fst (getStrCpy env) = Returns r ->
  exists v out : string,
    result (getStr (Exn := Exn) this env) = Returns v
    /\ result (getOther getStrCpy this env) = Returns out
    /\ prefix (v ++ "  --  ") out = true.
Proof.
  intro Hr. exists (str this), ((str this ++ "  --  ") ++ r).
  split; [reflexivity|]. split.
  - rewrite result_getOther, Hr. reflexivity.
  - apply Str.prefix_append.
Qed.

(** C4. An object constructed from [foo] stores [foo] followed by
    [" World"], and after any sequence of calls of [getStr] and
    [getOther], in any environment, the object is the one that the
    constructor left. *)
Theorem str_invariant (foo : string) (env : Env) :
  exists this : cmModClass,
    new_cmModClass (Exn := Exn) foo env = (Returns this, env)
    /\ str this = foo ++ " World"
    /\ forall (cs : list call) (env' : Env),
         receiver (run_calls getStrCpy cs this env') = this
         /\ str (receiver (run_calls getStrCpy cs this env'))
            = foo ++ " World".
Proof.
  exists {| str := foo ++ " World" |}.
  split; [apply new_cmModClass_eq|]. split; [reflexivity|].
  intros cs env'. rewrite receiver_run_calls. split; reflexivity.
Qed.

(** C5. Two calls of [getStr] in a row on one object have the same
    outcome, and so have two calls of [getOther] when [getStrCpy]
    answers the second call as it answered the first; the object is
    unchanged after either pair. *)
Theorem reads_idempotent (this : cmModClass) (env : Env) :
  (exists o : outcome Exn string,
     run_calls getStrCpy [CallGetStr; CallGetStr] this env
     = ([o; o], this, env))
  /\ (fst (getStrCpy (snd (getStrCpy env))) = fst (getStrCpy env) ->
      exists (o : outcome Exn string) (env' : Env),
        run_calls getStrCpy [CallGetOther; CallGetOther] this env
        = ([o; o], this, env')).
Proof.
  split.
  - exists (Returns (str this)). reflexivity.
  - intro Hsame. rewrite run_calls_getOther_twice.
    rewrite !result_getOther, Hsame.
    eexists; eexists; reflexivity.
Qed.

(** C7. Construction from any string, the empty one included, yields
    an object and leaves the environment alone; it never throws. *)
Theorem construction_total (foo : string) (env : Env) :
  (exists this : cmModClass,
     new_cmModClass (Exn := Exn) foo env = (Returns this, env))
  /\ (forall (e : Exn) (env' : Env),
        new_cmModClass foo env <> (Throws e, env'))
  /\ (exists this : cmModClass,
        new_cmModClass (Exn := Exn) "" env = (Returns this, env)).
Proof.
  rewrite !new_cmModClass_eq. repeat split.
  - eexists; reflexivity.
  - intros e env' H. discriminate H.
  - eexists; reflexivity.
Qed.

(** C8. [getStr] returns the stored string and changes neither the
    object nor the environment; any number of calls in a row all
    return that string and leave everything as it was. *)
Theorem getStr_pure (this : cmModClass) (env : Env) :
  getStr (Exn := Exn) this env = (Returns (str this), this, env)
  /\ forall n : nat,
       run_calls getStrCpy (repeat CallGetStr n) this env
       = (repeat (Returns (str this)) n, this, env).
Proof.
  split; [apply getStr_eq | intro n; apply run_calls_getStr].
Qed.

(** C9. [cmModClass(s).getStr()] and [cmModClass(t).getStr()] agree
    exactly when [s] and [t] are the same string. *)
Theorem construct_injective (s t : string) (env env' : Env) :
  on_new (Exn := Exn) s getStr env = on_new t getStr env' <-> s = t.
Proof.
  rewrite !on_new_getStr. split.
  - intro H. apply Returns_inj in H.
    exact (Str.append_inv_tail " World" s t H).
  - intro H. now rewrite H.
Qed.

End Properties.

(** C10. The outcome of [cmModClass(s).getOther()] is decided by [s]
    and by the outcome of [getStrCpy]: equal constructor arguments and
    equal provider outcomes give equal outcomes, whichever provider,
    environment type and environment they come from; when the provider
    returns [r] the outcome is [s], [" World"], ["  --  "] and [r] in a
    row. *)
Theorem getOther_deterministic {Env1 Env2 Exn : Type}
    (p1 : extern_fn Env1 Exn string) (p2 : extern_fn Env2 Exn string)
    (s1 s2 : string) (env1 : Env1) (env2 : Env2) :
  s1 = s2 ->
  fst (p1 env1) = fst (p2 env2) ->
  on_new s1 (getOther p1) env1 = on_new s2 (getOther p2) env2
  /\ forall r : string,
       fst (p1 env1) = Returns r ->
       on_new s1 (getOther p1) env1
       = Returns (((s1 ++ " World") ++ "  --  ") ++ r).
Proof.
  intros Hs Hp. subst s2. rewrite !on_new_getOther. split.
  - now rewrite Hp.
  - intros r Hr. now rewrite Hr.
Qed.

(** ** The conditional properties at concrete inputs *)

Lemma getOther_exact_witness :
  Sample.counting 0 = (Returns "Hello Copied", 1)
  /\ exists v : string,
       getStr (Exn := unit) {| str := "Hello World" |} 0
       = (Returns v, {| str := "Hello World" |}, 0)
       /\ getOther Sample.counting {| str := "Hello World" |} 0
          = (Returns ((v ++ "  --  ") ++ "Hello Copied"),
             {| str := "Hello World" |}, 1).
Proof.
  split; [reflexivity|].
  apply (getOther_exact Sample.counting {| str := "Hello World" |} 0 1
           "Hello Copied").
  reflexivity.
Defined.

Lemma getOther_prefix_witness :
  fst (Sample.echoing "xyz") = Returns "xyz"
  /\ exists v out : string,
       result (getStr (Exn := unit) {| str := " World" |} "xyz") = Returns v
       /\ result (getOther Sample.echoing {| str := " World" |} "xyz")
          = Returns out
       /\ prefix (v ++ "  --  ") out = true.
Proof.
  split; [reflexivity|].
  apply (getOther_prefix Sample.echoing {| str := " World" |} "xyz" "xyz").
  reflexivity.
Defined.

Lemma reads_idempotent_witness :
  fst (Sample.counting (snd (Sample.counting 0))) = fst (Sample.counting 0)
  /\ exists (o : outcome unit string) (env' : nat),
       run_calls Sample.counting [CallGetOther; CallGetOther]
                 {| str := "Hello World" |} 0
       = ([o; o], {| str := "Hello World" |}, env').
Proof.
  split; [reflexivity|].
  apply (proj2 (reads_idempotent Sample.counting {| str := "Hello World" |} 0)).
  reflexivity.
Defined.

Lemma getOther_deterministic_witness :
  fst (Sample.counting 7) = fst (Sample.echoing "Hello Copied")
  /\ on_new "Hello" (getOther Sample.counting) 7
     = on_new "Hello" (getOther Sample.echoing) "Hello Copied".
Proof.
  split; [reflexivity|].
  apply (getOther_deterministic Sample.counting Sample.echoing
           "Hello" "Hello" 7 "Hello Copied"); reflexivity.
Defined.

(** ** More on strings: cancellation on the left, and [substring] *)

Module Substr.

Lemma append_inv_head (u : string) :
  forall s t : string, u ++ s = u ++ t -> s = t.
Proof.
  induction u as [|c u IH]; simpl; intros s t H; [exact H|].
  injection H as H. exact (IH s t H).
Qed.

Lemma substring_whole (t : string) : substring 0 (String.length t) t = t.
Proof. induction t as [|c t IH]; simpl; [reflexivity | now rewrite IH]. Qed.

(** The first [length s] characters of [s ++ t] are [s]. *)
Lemma substring_append_l (s t : string) :
  substring 0 (String.length s) (s ++ t) = s.
Proof.
  induction s as [|c s IH]; simpl; [now destruct t | now rewrite IH].
Qed.

(** The [length t] characters of [s ++ t] from position [length s] on
    are [t]. *)
Lemma substring_append_r (s t : string) :
  substring (String.length s) (String.length t) (s ++ t) = t.
Proof.
  induction s as [|c s IH]; simpl; [apply substring_whole | exact IH].
Qed.

End Substr.

(** ** Further properties of the member functions *)

Section Further.

Context {Env Exn : Type}.
Variable getStrCpy : extern_fn Env Exn string.

(** X1. [getOther] throws exactly when [getStrCpy] does, and then it
    throws the same exception; in either case the object is unchanged
    and the environment is the one [getStrCpy] left. *)
Theorem getOther_failure_propagation (this : cmModClass) (env : Env) :
  (forall e : Exn,
     result (getOther getStrCpy this env) = Throws e
     <-> fst (getStrCpy env) = Throws e)
  /\ receiver (getOther getStrCpy this env) = this
  /\ environment (getOther getStrCpy this env) = snd (getStrCpy env).
Proof.
  rewrite getOther_eq.
  destruct (getStrCpy env) as [[r|e0] env1]; cbn; repeat split;
    intro H; try discriminate H; exact H.
Qed.


(** X3. A sequence of calls reaches [getStrCpy] once for each call of
    [getOther] and never for a call of [getStr]: the environment at
    the end is the initial one after that many steps of [getStrCpy]. *)
Theorem run_calls_environment (cs : list call) :
  forall (this : cmModClass) (env : Env),
    environment (run_calls getStrCpy cs this env)
    = Nat.iter (provider_calls cs) (fun e => snd (getStrCpy e)) env.
Proof.
  induction cs as [|c cs IH]; intros this env; [reflexivity|].
  cbn [run_calls].
  pose proof (receiver_invoke getStrCpy c this env) as Hrec.
  destruct c; cbn [invoke provider_calls] in *.
  - rewrite getStr_eq. specialize (IH this env).
    destruct (run_calls getStrCpy cs this env) as [[os this''] env''].
    exact IH.
  - rewrite Nat.iter_succ_r.
    rewrite getOther_eq.
    destruct (getStrCpy env) as [[r|e] env1]; cbn [snd];
      specialize (IH this env1);
      destruct (run_calls getStrCpy cs this env1) as [[os this''] env''];
      exact IH.
Qed.

(** X4. In any sequence of calls there is one outcome for each call,
    and every call of [getStr] returns the stored string, whatever
    [getStrCpy] did in the calls before it. *)
Theorem run_calls_outcomes (cs : list call) :
  forall (this : cmModClass) (env : Env),
    List.length (result (run_calls getStrCpy cs this env)) = List.length cs
    /\ forall i : nat,
         nth_error cs i = Some CallGetStr ->
         nth_error (result (run_calls getStrCpy cs this env)) i
         = Some (Returns (str this)).
Proof.
  induction cs as [|c cs IH]; intros this env.
  - split; [reflexivity|]. intros [|i] H; discriminate H.
  - cbn [run_calls].
    pose proof (receiver_invoke getStrCpy c this env) as Hrec.
    assert (Hc : c = CallGetStr ->
                 result (invoke getStrCpy c this env) = Returns (str this)).
    { intro E; subst c; reflexivity. }
    destruct (invoke getStrCpy c this env) as [[o this'] env'].
    unfold receiver in Hrec; cbn in Hrec; subst this'.
    destruct (IH this env') as [Hlen Hnth].
    destruct (run_calls getStrCpy cs this env') as [[os this''] env''].
    unfold result in *; cbn in *. split.
    + now rewrite Hlen.
    + intros [|i] H; cbn in *.
      * injection H as H. now rewrite (Hc H).
      * exact (Hnth i H).
Qed.

End Further.

(** ** What the returned strings keep of their parts *)

(** X5. The string that [cmModClass(s).getStr()] returns is six
    characters longer than [s]; its last six characters are
    [" World"], and without them it is [s] again. *)
Theorem getStr_round_trip {Env Exn : Type} (s : string) (env : Env) :
  exists v : string,
    on_new (Exn := Exn) s getStr env = Returns v
    /\ String.length v = String.length s + 6
    /\ substring 0 (String.length v - 6) v = s
    /\ substring (String.length v - 6) 6 v = " World".
Proof.
  exists (s ++ " World"). split; [apply on_new_getStr|].
  assert (Hlen : String.length (s ++ " World") = String.length s + 6)
    by (rewrite Str.length_append; reflexivity).
  rewrite Hlen.
  replace (String.length s + 6 - 6) with (String.length s) by lia.
  repeat split.
  - apply Substr.substring_append_l.
  - exact (Substr.substring_append_r s " World").
Qed.

(** X6. When [getStrCpy] returns [r], the string [out] that [getOther]
    returns is as long as the value [v] of [getStr], six characters and
    [r] together; [out] begins with [v], and what follows the six
    characters after [v] is [r]. *)
Theorem getOther_round_trip {Env Exn : Type}
    (getStrCpy : extern_fn Env Exn string)
    (this : cmModClass) (env : Env) (r : string) :
  fst (getStrCpy env) = Returns r ->
  exists v out : string,
    result (getStr (Exn := Exn) this env) = Returns v
    /\ result (getOther getStrCpy this env) = Returns out
    /\ String.length out = String.length v + 6 + String.length r
    /\ substring 0 (String.length v) out = v
    /\ substring (String.length v + 6)
                 (String.length out - (String.length v + 6)) out = r.
Proof.
  intro Hr. exists (str this), ((str this ++ "  --  ") ++ r).
  split; [reflexivity|].
  split; [rewrite result_getOther, Hr; reflexivity|].
  assert (Hsep : String.length (str this ++ "  --  ")
                 = String.length (str this) + 6)
    by (rewrite Str.length_append; reflexivity).
  assert (Hlen : String.length ((str this ++ "  --  ") ++ r)
                 = String.length (str this) + 6 + String.length r)
    by (rewrite Str.length_append, Hsep; reflexivity).
  split; [exact Hlen|]. split.
  - rewrite Str.append_assoc. apply Substr.substring_append_l.
  - rewrite Hlen, <- Hsep.
    replace (String.length (str this ++ "  --  ") + String.length r
             - String.length (str this ++ "  --  "))
      with (String.length r) by lia.
    apply Substr.substring_append_r.
Qed.

(** X7. On one object, different strings from [getStrCpy] give
    different strings from [getOther]: equal results of [getOther]
    mean that the providers returned the same string. *)
Theorem getOther_injective_provider {Env1 Env2 Exn : Type}
    (p1 : extern_fn Env1 Exn string) (p2 : extern_fn Env2 Exn string)
    (this : cmModClass) (env1 : Env1) (env2 : Env2) (r1 r2 : string) :
  fst (p1 env1) = Returns r1 ->
  fst (p2 env2) = Returns r2 ->
  result (getOther p1 this env1) = result (getOther p2 this env2) ->
  r1 = r2.
Proof.
  intros H1 H2. rewrite !result_getOther, H1, H2. intro H.
  apply Returns_inj in H.
  exact (Substr.append_inv_head (str this ++ "  --  ") r1 r2 H).
Qed.

(** X8. With the same string from [getStrCpy], objects constructed
    from different strings give different strings from [getOther]. *)
Theorem getOther_injective_input {Env1 Env2 Exn : Type}
    (p1 : extern_fn Env1 Exn string) (p2 : extern_fn Env2 Exn string)
    (s t : string) (env1 : Env1) (env2 : Env2) (r : string) :
  fst (p1 env1) = Returns r ->
  fst (p2 env2) = Returns r ->
  on_new s (getOther p1) env1 = on_new t (getOther p2) env2 ->
  s = t.
Proof.
  intros H1 H2. rewrite !on_new_getOther, H1, H2. intro H.
  apply Returns_inj in H. rewrite !Str.append_assoc in H.
  exact (Str.append_inv_tail _ s t H).
Qed.

(** X9. The string from [getOther] does not determine the constructor
    argument and the provider's string together: for all [s], [t] and
    [r], the argument [s ++ " World  --  " ++ t] with [r] from the
    provider, and the different argument [s] with
    [t ++ " World  --  " ++ r] from the provider, give the same
    string. *)
Theorem getOther_joint_ambiguity {Env1 Env2 Exn : Type}
    (p1 : extern_fn Env1 Exn string) (p2 : extern_fn Env2 Exn string)
    (s t r : string) (env1 : Env1) (env2 : Env2) :
  fst (p1 env1) = Returns r ->
  fst (p2 env2) = Returns (t ++ " World" ++ "  --  " ++ r) ->
  on_new (s ++ " World" ++ "  --  " ++ t) (getOther p1) env1
  = on_new s (getOther p2) env2
  /\ s ++ " World" ++ "  --  " ++ t <> s.
Proof.
  intros H1 H2. rewrite !on_new_getOther, H1, H2. split.
  - f_equal. now rewrite !Str.append_assoc.
  - intro H. apply (f_equal String.length) in H.
    rewrite Str.length_append in H. cbn in H. lia.
Qed.

(** ** The further conditional properties at concrete inputs *)


Lemma getOther_round_trip_witness :
  fst (Sample.counting 0) = Returns "Hello Copied"
  /\ exists v out : string,
       result (getStr (Exn := unit) {| str := "Hello World" |} 0) = Returns v
       /\ result (getOther Sample.counting {| str := "Hello World" |} 0)
          = Returns out
       /\ String.length out = String.length v + 6 + 12
       /\ substring 0 (String.length v) out = v
       /\ substring (String.length v + 6)
                    (String.length out - (String.length v + 6)) out
          = "Hello Copied".
Proof.
  split; [reflexivity|].
  apply (getOther_round_trip Sample.counting {| str := "Hello World" |} 0
           "Hello Copied").
  reflexivity.
Defined.

Lemma getOther_injective_provider_witness :
  (fst (Sample.counting 3) = Returns "Hello Copied"
   /\ fst (Sample.echoing "Hello Copied") = Returns "Hello Copied"
   /\ result (getOther Sample.counting {| str := " World" |} 3)
      = result (getOther Sample.echoing {| str := " World" |} "Hello Copied"))
  /\ "Hello Copied" = "Hello Copied".
Proof.
  split; [repeat split|].
  apply (getOther_injective_provider Sample.counting Sample.echoing
           {| str := " World" |} 3 "Hello Copied"
           "Hello Copied" "Hello Copied"); reflexivity.
Defined.

Lemma getOther_injective_input_witness :
  (fst (Sample.counting 3) = Returns "Hello Copied"
   /\ fst (Sample.echoing "Hello Copied") = Returns "Hello Copied"
   /\ on_new "Hello" (getOther Sample.counting) 3
      = on_new "Hello" (getOther Sample.echoing) "Hello Copied")
  /\ "Hello" = "Hello".
Proof.
  split; [repeat split|].
  apply (getOther_injective_input Sample.counting Sample.echoing
           "Hello" "Hello" 3 "Hello Copied" "Hello Copied"); reflexivity.
Defined.

Lemma getOther_joint_ambiguity_witness :
  (fst (Sample.echoing "c") = Returns "c"
   /\ fst (Sample.echoing "b World  --  c") = Returns "b World  --  c")
  /\ on_new "a World  --  b" (getOther Sample.echoing) "c"
     = on_new "a" (getOther Sample.echoing) "b World  --  c"
  /\ "a World  --  b" <> "a".
Proof.
  split; [split; reflexivity|].
  apply (getOther_joint_ambiguity Sample.echoing Sample.echoing
           "a" "b" "c" "c" "b World  --  c"); reflexivity.
Defined.
